(** * zig_gpio: the ioctl-code report ([src/ioctl.c])

    The program prints the numeric values of the GPIO character-device
    ioctl request codes.  Each code is built by the kernel's [_IOR]/[_IOWR]
    macros from a direction, the magic number [0xB4], a command number and
    the [sizeof] of a payload structure.

    The development has three layers, in the order of the C file:
    - [Layout]: C object types with [sizeof]/[alignof], and the payload
      structures declared in the source;
    - [Ioctl]: the encoding macros of [<linux/ioctl.h>] and the request
      codes the source defines with them;
    - [Report]: [printf] on an output stream, and [main]. *)

From Stdlib Require Import ZArith List String Ascii Bool Lia.
Import ListNotations.
Local Open Scope string_scope.
Local Open Scope Z_scope.
Local Set Warnings "-register-all".

(* ===================================================================== *)
(** ** Structure layout *)
(* ===================================================================== *)

Module Layout.

(** The object types that occur in [src/ioctl.c].  [__aligned_u64] is
    [__u64 __attribute__((aligned(8)))]; an anonymous member carries the
    empty name. *)
Inductive ctype : Type :=
| Tchar
| Tu32
| Ts32
| Taligned_u64
| Tarray (elt : ctype) (len : Z)
| Tstruct (fields : list (string * ctype))
| Tunion (members : list (string * ctype)).

(** Round [off] up to the next multiple of [a]. *)
Definition align_up (off a : Z) : Z := ((off + a - 1) / a) * a.

Section Sizes.

(** The alignment the target gives to a 32-bit integer: 4 on the usual
    Linux ABIs, 2 on m68k.  Everything else in the file has a layout the
    source pins down itself ([char] is 1 byte, [__aligned_u64] states its
    alignment). *)
Variable int_align : Z.

Fixpoint alignof (t : ctype) : Z :=
  match t with
  | Tchar => 1
  | Tu32 | Ts32 => int_align
  | Taligned_u64 => 8
  | Tarray elt _ => alignof elt
  | Tstruct fs | Tunion fs =>
      fold_right (fun f a => Z.max (alignof (snd f)) a) 1 fs
  end.

Fixpoint sizeof (t : ctype) : Z :=
  match t with
  | Tchar => 1
  | Tu32 | Ts32 => 4
  | Taligned_u64 => 8
  | Tarray elt len => len * sizeof elt
  | Tstruct fs =>
      (* members in declaration order, each at the next offset that
         satisfies its alignment; tail padding up to the struct's own *)
      align_up
        (fold_left
           (fun off f => align_up off (alignof (snd f)) + sizeof (snd f))
           fs 0)
        (alignof t)
  | Tunion fs =>
      align_up
        (fold_right (fun f m => Z.max (sizeof (snd f)) m) 0 fs)
        (alignof t)
  end.

(** Offset of each member of a struct, in declaration order. *)
Fixpoint offsets_from (off : Z) (fs : list (string * ctype))
  : list (string * Z) :=
  match fs with
  | [] => []
  | (name, t) :: rest =>
      let o := align_up off (alignof t) in
      (name, o) :: offsets_from (o + sizeof t) rest
  end.

End Sizes.

Definition GPIO_MAX_NAME_SIZE : Z := 32.
Definition GPIO_V2_LINES_MAX : Z := 64.
Definition GPIO_V2_LINE_NUM_ATTRS_MAX : Z := 10.

Definition gpiochip_info : ctype :=
  Tstruct
    [ ("name",  Tarray Tchar GPIO_MAX_NAME_SIZE);
      ("label", Tarray Tchar GPIO_MAX_NAME_SIZE);
      ("lines", Tu32) ].

Definition gpio_v2_line_attribute : ctype :=
  Tstruct
    [ ("id",      Tu32);
      ("padding", Tu32);
      ("",        Tunion
                    [ ("flags",              Taligned_u64);
                      ("values",             Taligned_u64);
                      ("debounce_period_us", Tu32) ]) ].

Definition gpio_v2_line_config_attribute : ctype :=
  Tstruct
    [ ("attr", gpio_v2_line_attribute);
      ("mask", Taligned_u64) ].

Definition gpio_v2_line_config : ctype :=
  Tstruct
    [ ("flags",     Taligned_u64);
      ("num_attrs", Tu32);
      ("padding",   Tarray Tu32 5);
      ("attrs",     Tarray gpio_v2_line_config_attribute
                           GPIO_V2_LINE_NUM_ATTRS_MAX) ].

Definition gpio_v2_line_request : ctype :=
  Tstruct
    [ ("offsets",           Tarray Tu32 GPIO_V2_LINES_MAX);
      ("consumer",          Tarray Tchar GPIO_MAX_NAME_SIZE);
      ("config",            gpio_v2_line_config);
      ("num_lines",         Tu32);
      ("event_buffer_size", Tu32);
      ("padding",           Tarray Tu32 5);
      ("fd",                Ts32) ].

Definition gpio_v2_line_info : ctype :=
  Tstruct
    [ ("name",      Tarray Tchar GPIO_MAX_NAME_SIZE);
      ("consumer",  Tarray Tchar GPIO_MAX_NAME_SIZE);
      ("offset",    Tu32);
      ("num_attrs", Tu32);
      ("flags",     Taligned_u64);
      ("attrs",     Tarray gpio_v2_line_attribute
                           GPIO_V2_LINE_NUM_ATTRS_MAX);
      ("padding",   Tarray Tu32 4) ].

Definition gpio_v2_line_values : ctype :=
  Tstruct
    [ ("bits", Taligned_u64);
      ("mask", Taligned_u64) ].

(** The payload records of the catalog, by name. *)
Definition payload_records : list (string * ctype) :=
  [ ("gpiochip_info",                 gpiochip_info);
    ("gpio_v2_line_attribute",        gpio_v2_line_attribute);
    ("gpio_v2_line_config_attribute", gpio_v2_line_config_attribute);
    ("gpio_v2_line_config",           gpio_v2_line_config);
    ("gpio_v2_line_request",          gpio_v2_line_request);
    ("gpio_v2_line_info",             gpio_v2_line_info);
    ("gpio_v2_line_values",           gpio_v2_line_values) ].

(** The alignments a 32-bit integer has on a Linux target. *)
Definition int_align_ok (a : Z) : Prop := a = 1 \/ a = 2 \/ a = 4.

End Layout.

(* ===================================================================== *)
(** ** The ioctl encoding *)
(* ===================================================================== *)

Module Ioctl.

Import Layout.

(** A C [unsigned int]: 32 bits, arithmetic modulo [2^32]. *)
Definition u32 (z : Z) : Z := Z.land z 0xFFFFFFFF.

(** Modelled from the spec: the macros of [<linux/ioctl.h>] are a system
    header, not part of the repository.  The spec fixes the packing: a
    32-bit word, direction in bits [31:30], payload size in the next 14
    bits, magic in the next 8, command number in the low 8, the four
    shifted fields joined by bitwise OR, with no validation.  The numeric
    direction tags are those of the convention the spec refers to
    (NONE = 0, WRITE = 1, READ = 2). *)
Definition _IOC_NRBITS : Z := 8.
Definition _IOC_TYPEBITS : Z := 8.
Definition _IOC_SIZEBITS : Z := 14.
Definition _IOC_DIRBITS : Z := 2.

Definition _IOC_NRMASK : Z := Z.shiftl 1 _IOC_NRBITS - 1.
Definition _IOC_TYPEMASK : Z := Z.shiftl 1 _IOC_TYPEBITS - 1.
Definition _IOC_SIZEMASK : Z := Z.shiftl 1 _IOC_SIZEBITS - 1.
Definition _IOC_DIRMASK : Z := Z.shiftl 1 _IOC_DIRBITS - 1.

Definition _IOC_NRSHIFT : Z := 0.
Definition _IOC_TYPESHIFT : Z := _IOC_NRSHIFT + _IOC_NRBITS.
Definition _IOC_SIZESHIFT : Z := _IOC_TYPESHIFT + _IOC_TYPEBITS.
Definition _IOC_DIRSHIFT : Z := _IOC_SIZESHIFT + _IOC_SIZEBITS.

(** Modelled from the spec: the direction tags NONE, WRITE and READ of
    the missing header; READ|WRITE is the OR of the last two. *)
Definition _IOC_NONE : Z := 0.
Definition _IOC_WRITE : Z := 1.
Definition _IOC_READ : Z := 2.

(** Modelled from the spec: the packing macro of the missing header, the
    OR of the four shifted fields in an [unsigned int]. *)
Definition _IOC (dir type nr size : Z) : Z :=
  u32 (Z.lor (Z.lor (Z.lor (Z.shiftl dir _IOC_DIRSHIFT)
                           (Z.shiftl type _IOC_TYPESHIFT))
                    (Z.shiftl nr _IOC_NRSHIFT))
             (Z.shiftl size _IOC_SIZESHIFT)).

(** Modelled from the spec: the decoding macros of the missing header,
    one shift and mask per field of the packing. *)
Definition _IOC_DIR (code : Z) : Z :=
  Z.land (Z.shiftr code _IOC_DIRSHIFT) _IOC_DIRMASK.
Definition _IOC_TYPE (code : Z) : Z :=
  Z.land (Z.shiftr code _IOC_TYPESHIFT) _IOC_TYPEMASK.
Definition _IOC_NR (code : Z) : Z :=
  Z.land (Z.shiftr code _IOC_NRSHIFT) _IOC_NRMASK.
Definition _IOC_SIZE (code : Z) : Z :=
  Z.land (Z.shiftr code _IOC_SIZESHIFT) _IOC_SIZEMASK.

(** [sizeof] on the target: a 32-bit integer is 4-byte aligned. *)
Definition target_int_align : Z := 4.

(** Modelled from the spec: the constructors of the missing header.  The
    payload enters by its [sizeof]; [_IOR] packs direction READ, [_IOWR]
    packs READ|WRITE. *)
Definition _IOC_TYPECHECK (t : ctype) : Z := sizeof target_int_align t.

Definition _IOR (type nr : Z) (size : ctype) : Z :=
  _IOC _IOC_READ type nr (_IOC_TYPECHECK size).
Definition _IOWR (type nr : Z) (size : ctype) : Z :=
  _IOC (Z.lor _IOC_READ _IOC_WRITE) type nr (_IOC_TYPECHECK size).

(** The request codes, as [src/ioctl.c] defines them. *)
Definition GPIO_GET_CHIPINFO_IOCTL : Z := _IOR 0xB4 0x01 gpiochip_info.
Definition GPIO_GET_LINEINFO_UNWATCH_IOCTL : Z := _IOWR 0xB4 0x0C Tu32.

Definition GPIO_V2_GET_LINEINFO_IOCTL : Z :=
  _IOWR 0xB4 0x05 gpio_v2_line_info.
Definition GPIO_V2_GET_LINEINFO_WATCH_IOCTL : Z :=
  _IOWR 0xB4 0x06 gpio_v2_line_info.
Definition GPIO_V2_GET_LINE_IOCTL : Z :=
  _IOWR 0xB4 0x07 gpio_v2_line_request.
Definition GPIO_V2_LINE_SET_CONFIG_IOCTL : Z :=
  _IOWR 0xB4 0x0D gpio_v2_line_config.
Definition GPIO_V2_LINE_GET_VALUES_IOCTL : Z :=
  _IOWR 0xB4 0x0E gpio_v2_line_values.
Definition GPIO_V2_LINE_SET_VALUES_IOCTL : Z :=
  _IOWR 0xB4 0x0F gpio_v2_line_values.

End Ioctl.

(* ===================================================================== *)
(** ** The report driver *)
(* ===================================================================== *)

Module Report.

Import Layout Ioctl.

(** What a run can see and change: its arguments, its environment and the
    bytes on its output stream. *)
Record world : Type := mkWorld {
  argv : list string;
  environ : list (string * string);
  stdout : string
}.

(** Statements of [main]: a state transformer on the world that also
    yields a value. *)
Definition IO (A : Type) : Type := world -> A * world.

Definition ret {A : Type} (a : A) : IO A := fun w => (a, w).

Definition bind {A B : Type} (c : IO A) (k : A -> IO B) : IO B :=
  fun w => let (a, w') := c w in k a w'.

Notation "c1 ;; c2" := (bind c1 (fun _ => c2))
  (at level 61, right associativity).

Definition LF : ascii := ascii_of_nat 10.
Definition BACKSLASH : ascii := ascii_of_nat 92.

(** A C string literal as the compiler reads it: the escape [\n] stands
    for a line feed. *)
Fixpoint cstr (s : string) : string :=
  match s with
  | String c rest =>
      match rest with
      | String "n" rest' =>
          if Ascii.eqb c BACKSLASH then String LF (cstr rest')
          else String c (cstr rest)
      | _ => String c (cstr rest)
      end
  | EmptyString => EmptyString
  end.

Definition hex_digit (d : Z) : ascii :=
  match String.get (Z.to_nat d) "0123456789ABCDEF" with
  | Some c => c
  | None => "0"%char
  end.

(** The digits of [v] in base 16, most significant first, at least one. *)
Fixpoint to_hex_fuel (fuel : nat) (v : Z) (acc : string) : string :=
  let acc' := String (hex_digit (v mod 16)) acc in
  match fuel with
  | O => acc'
  | S k => if Z.eqb (v / 16) 0 then acc' else to_hex_fuel k (v / 16) acc'
  end.

Definition to_hex (v : Z) : string :=
  to_hex_fuel (Z.to_nat (Z.log2 v)) v "".

Fixpoint zeros (n : nat) : string :=
  match n with
  | O => ""
  | S k => String "0" (zeros k)
  end.

(** Field width with the [0] flag: zeros on the left up to [width]; a
    longer number is never cut. *)
Definition zero_pad (width : nat) (s : string) : string :=
  zeros (width - String.length s) ++ s.

(** [printf]'s formatting, for the one conversion the source uses:
    [%08X] takes an [unsigned int] and writes it in uppercase hexadecimal,
    zero-padded to 8 columns.  Every other character is copied. *)
Fixpoint vformat (fmt : string) (arg : Z) : string :=
  match fmt with
  | String "%" (String "0" (String "8" (String "X" rest))) =>
      zero_pad 8 (to_hex (u32 arg)) ++ vformat rest arg
  | String c rest => String c (vformat rest arg)
  | EmptyString => EmptyString
  end.

(** [printf] appends to the output stream and returns the number of
    characters written. *)
Definition printf (fmt : string) (arg : Z) : IO Z :=
  fun w =>
    let out := vformat fmt arg in
    (Z.of_nat (String.length out),
     {| argv := argv w; environ := environ w; stdout := stdout w ++ out |}).

Definition main : IO Z :=
  printf (cstr "0x%08X GPIO_GET_CHIPINFO_IOCTL\n") GPIO_GET_CHIPINFO_IOCTL ;;
  printf (cstr "0x%08X GPIO_V2_GET_LINEINFO_IOCTL\n") GPIO_V2_GET_LINEINFO_IOCTL ;;
  printf (cstr "0x%08X GPIO_V2_GET_LINEINFO_WATCH_IOCTL\n") GPIO_V2_GET_LINEINFO_WATCH_IOCTL ;;
  printf (cstr "0x%08X GPIO_V2_GET_LINE_IOCTL\n") GPIO_V2_GET_LINE_IOCTL ;;
  printf (cstr "0x%08X GPIO_GET_LINEINFO_UNWATCH_IOCTL\n") GPIO_GET_LINEINFO_UNWATCH_IOCTL ;;
  printf (cstr "0x%08X GPIO_V2_LINE_SET_CONFIG_IOCTL\n") GPIO_V2_LINE_SET_CONFIG_IOCTL ;;
  printf (cstr "0x%08X GPIO_V2_LINE_GET_VALUES_IOCTL\n") GPIO_V2_LINE_GET_VALUES_IOCTL ;;
  printf (cstr "0x%08X GPIO_V2_LINE_SET_VALUES_IOCTL\n") GPIO_V2_LINE_SET_VALUES_IOCTL ;;
  ret 0.

(** One invocation of the program: a fresh output stream, the exit status
    and everything written to the stream. *)
Definition run (args : list string) (env : list (string * string))
  : Z * string :=
  let (status, w) := main (mkWorld args env "") in (status, stdout w).

(** The report of the invocation without arguments and with an empty
    environment. *)
Definition report : string := snd (run [] []).

(** [writes c v out]: from every world, [c] yields [v], appends [out] to
    the output stream and touches nothing else. *)
Definition writes {A : Type} (c : IO A) (v : A) (out : string) : Prop :=
  forall w : world,
    c w = (v, mkWorld (argv w) (environ w) (stdout w ++ out)).

(** *** Reading a report back *)

(** The lines of a text, each without its terminating line feed. *)
Fixpoint lines (s : string) : list string :=
  match s with
  | EmptyString => []
  | String c rest =>
      if Ascii.eqb c LF then "" :: lines rest
      else match lines rest with
           | [] => [String c ""]
           | l :: ls => String c l :: ls
           end
  end.

(** Value of an uppercase hexadecimal digit. *)
Definition hex_value (c : ascii) : option Z :=
  let n := Z.of_nat (nat_of_ascii c) in
  if Z.leb 48 n && Z.leb n 57 then Some (n - 48)
  else if Z.leb 65 n && Z.leb n 70 then Some (n - 55)
  else None.

Definition is_upper_hex (c : ascii) : bool :=
  match hex_value c with Some _ => true | None => false end.

Fixpoint read_hex (n : nat) (s : string) (acc : Z) : option (Z * string) :=
  match n with
  | O => Some (acc, s)
  | S k =>
      match s with
      | String c rest =>
          match hex_value c with
          | Some d => read_hex k rest (16 * acc + d)
          | None => None
          end
      | EmptyString => None
      end
  end.

(** [reads d v]: the digits [d] are uppercase hexadecimal and, read
    after any prefix value, shift it left and add [v]. *)
Definition reads (d : string) (v : Z) : Prop :=
  Forall (fun c => is_upper_hex c = true) (list_ascii_of_string d)
  /\ forall (acc : Z) (rest : string),
       read_hex (String.length d) (d ++ rest) acc
       = Some (acc * 16 ^ Z.of_nat (String.length d) + v, rest).

(** A report line [0xXXXXXXXX NAME] gives the number and the name. *)
Definition parse_line (l : string) : option (Z * string) :=
  match l with
  | String "0" (String "x" rest) =>
      match read_hex 8 rest 0 with
      | Some (v, String " " name) => Some (v, name)
      | _ => None
      end
  | _ => None
  end.

End Report.

(* ===================================================================== *)
(** ** The specification's view of the report *)
(* ===================================================================== *)

Module Spec.

Import Layout Report.

Inductive direction : Type := NONE | WRITE | READ | READ_WRITE.

Definition direction_code (d : direction) : Z :=
  match d with
  | NONE => 0
  | WRITE => 1
  | READ => 2
  | READ_WRITE => 3
  end.

(** The packing in the specification's words: the bitwise OR of the
    direction in bits [31:30], the payload size in the next field, the
    magic in the next 8 bits and the command number in the low 8 bits. *)
Definition spec_pack (dir size magic nr : Z) : Z :=
  Z.lor (Z.lor (Z.lor (dir * 2 ^ 30) (size * 2 ^ 16)) (magic * 2 ^ 8)) nr.

(** An entry of the report: its symbolic name and the four parameters
    its [#define] gives. *)
Record entry : Type := mkEntry {
  e_name : string;
  e_dir : direction;
  e_magic : Z;
  e_nr : Z;
  e_payload : ctype
}.

Definition entries : list entry :=
  [ mkEntry "GPIO_GET_CHIPINFO_IOCTL"          READ       0xB4 0x01 gpiochip_info;
    mkEntry "GPIO_V2_GET_LINEINFO_IOCTL"       READ_WRITE 0xB4 0x05 gpio_v2_line_info;
    mkEntry "GPIO_V2_GET_LINEINFO_WATCH_IOCTL" READ_WRITE 0xB4 0x06 gpio_v2_line_info;
    mkEntry "GPIO_V2_GET_LINE_IOCTL"           READ_WRITE 0xB4 0x07 gpio_v2_line_request;
    mkEntry "GPIO_GET_LINEINFO_UNWATCH_IOCTL"  READ_WRITE 0xB4 0x0C Tu32;
    mkEntry "GPIO_V2_LINE_SET_CONFIG_IOCTL"    READ_WRITE 0xB4 0x0D gpio_v2_line_config;
    mkEntry "GPIO_V2_LINE_GET_VALUES_IOCTL"    READ_WRITE 0xB4 0x0E gpio_v2_line_values;
    mkEntry "GPIO_V2_LINE_SET_VALUES_IOCTL"    READ_WRITE 0xB4 0x0F gpio_v2_line_values ].

Definition entry_code (e : entry) : Z :=
  spec_pack (direction_code (e_dir e))
            (sizeof Ioctl.target_int_align (e_payload e))
            (e_magic e) (e_nr e).

(** The symbolic names, in the order of the report. *)
Definition ioctl_names : list string := map e_name entries.

(** What is printed: the (number, name) pairs read back from the lines
    of the report, and the numbers alone. *)
Definition printed : list (Z * string) :=
  flat_map (fun l => match parse_line l with
                     | Some e => [e]
                     | None => []
                     end)
           (lines report).

Definition printed_codes : list Z := map fst printed.

(** The shape [0xXXXXXXXX NAME] of a line: eight uppercase hexadecimal
    digits between the prefix and the space. *)
Definition is_report_line (name l : string) : Prop :=
  exists digits : string,
    l = "0x" ++ digits ++ " " ++ name
    /\ String.length digits = 8%nat
    /\ Forall (fun c => is_upper_hex c = true) (list_ascii_of_string digits).

(** A text whose lines are [n] report lines. *)
Definition report_of_lines (n : nat) (out : string) : Prop :=
  exists names : list string,
    List.length names = n /\ Forall2 is_report_line names (lines out).

(** The lines put back together, each with its line feed. *)
Definition unlines (ls : list string) : string :=
  fold_right (fun l acc => l ++ String LF acc) "" ls.

End Spec.

(* ===================================================================== *)
(** ** Looking inside the records *)
(* ===================================================================== *)

Module Tiling.

Import Layout.

(** The alignment a type has by its size alone, the strictest any Linux
    target asks for; a union counts as its 64-bit members. *)
Definition natural_align (t : ctype) : Z :=
  match t with
  | Tchar => 1
  | Tu32 | Ts32 => 4
  | _ => 8
  end.

(** The [n] indices that follow [from]. *)
Fixpoint indices (n : nat) (from : Z) : list Z :=
  match n with
  | O => []
  | S k => from :: indices k (from + 1)
  end.

Section Leaves.

Variable int_align : Z.

(** Every scalar of an object, at any depth, with its offset from the
    start of the outermost record: arrays are walked element by element,
    structs member by member at the offsets [sizeof] gives them; a union
    is one leaf. *)
Fixpoint leaves (base : Z) (t : ctype) : list (Z * ctype) :=
  match t with
  | Tarray elt len =>
      flat_map (fun i => leaves (base + i * sizeof int_align elt) elt)
               (indices (Z.to_nat len) 0)
  | Tstruct fs =>
      (fix members (off : Z) (fs : list (string * ctype))
         : list (Z * ctype) :=
         match fs with
         | [] => []
         | f :: rest =>
             let o := align_up off (alignof int_align (snd f)) in
             (leaves (base + o) (snd f)
                ++ members (o + sizeof int_align (snd f)) rest)%list
         end) 0 fs
  | _ => [(base, t)]
  end.

(** Walk the leaves from offset [from]: each must start where the one
    before it ended.  The result is the end of the last leaf. *)
Fixpoint tiles (from : Z) (ls : list (Z * ctype)) : option Z :=
  match ls with
  | [] => Some from
  | (o, t) :: rest =>
      if Z.eqb o from then tiles (o + sizeof int_align t) rest else None
  end.

Definition naturally_aligned (l : Z * ctype) : bool :=
  Z.eqb (fst l mod natural_align (snd l)) 0.

End Leaves.

(** Fields that fit the widths of the packing. *)
Definition fields_fit (dir type nr size : Z) : Prop :=
  0 <= dir < 2 ^ 2 /\ 0 <= type < 2 ^ 8 /\ 0 <= nr < 2 ^ 8
  /\ 0 <= size < 2 ^ 14.

(** The alignments that occur. *)
Definition align_value (x : Z) : Prop := x = 1 \/ x = 2 \/ x = 4 \/ x = 8.

(** Array lengths are not negative, at any depth. *)
Fixpoint well_formed (t : ctype) : bool :=
  match t with
  | Tarray elt len => Z.leb 0 len && well_formed elt
  | Tstruct fs | Tunion fs => forallb (fun f => well_formed (snd f)) fs
  | _ => true
  end.

End Tiling.

(* ===================================================================== *)
(** ** Facts about the encoding *)
(* ===================================================================== *)

Section EncodingFacts.

Import Ioctl.

Lemma testbit_small (x n i : Z) :
  0 <= x < 2 ^ n -> n <= i -> Z.testbit x i = false.
Proof.
  intros [Hlo Hhi] Hi.
  destruct (Z.eq_dec x 0) as [-> | Hx].
  - apply Z.testbit_0_l.
  - apply Z.bits_above_log2; [assumption|].
    assert (Z.log2 x < n) by (apply Z.log2_lt_pow2; lia).
    lia.
Qed.

(** Bit [i] of a packed code: below bit 32, the OR of the four fields,
    each seen from its own shift. *)
Lemma IOC_testbit (dir type nr size i : Z) :
  0 <= i ->
  Z.testbit (_IOC dir type nr size) i =
  (i <? 32) &&
  (Z.testbit dir (i - 30) || Z.testbit type (i - 8) || Z.testbit nr i
   || Z.testbit size (i - 16)).
Proof.
  intros Hi. unfold _IOC, u32.
  change 0xFFFFFFFF with (Z.ones 32).
  rewrite Z.land_spec, Z.testbit_ones_nonneg by lia.
  rewrite !Z.lor_spec, !Z.shiftl_spec by assumption.
  change _IOC_DIRSHIFT with 30. change _IOC_TYPESHIFT with 8.
  change _IOC_NRSHIFT with 0. change _IOC_SIZESHIFT with 16.
  rewrite Z.sub_0_r. apply andb_comm.
Qed.

(** Bit [i] of a field cut out of a code by shift and mask. *)
Lemma field_testbit (code shift width i : Z) :
  0 <= shift -> 0 <= width -> 0 <= i ->
  Z.testbit (Z.land (Z.shiftr code shift) (Z.ones width)) i =
  (i <? width) && Z.testbit code (i + shift).
Proof.
  intros Hs Hw Hi.
  rewrite Z.land_spec, Z.shiftr_spec, Z.testbit_ones_nonneg by assumption.
  apply andb_comm.
Qed.

(** Reduce an equation between a decoded field and a number to its bits,
    and split on where the bit lies. *)
Ltac field_bits i :=
  let Hi := fresh "Hi" in
  apply Z.bits_inj'; intros i Hi;
  rewrite field_testbit, IOC_testbit by lia;
  rewrite ?Z.testbit_mod_pow2, ?Z.land_spec, ?Z.lor_spec, ?Z.shiftr_spec
    by lia;
  repeat match goal with
         | |- context [?a <? ?b] => destruct (Z.ltb_spec a b)
         end;
  rewrite ?andb_false_l, ?andb_true_l, ?andb_false_r, ?andb_true_r.

Ltac bit_off :=
  repeat match goal with
         | |- context [Z.testbit ?x ?j] =>
             first
               [ rewrite (Z.testbit_neg_r x j) by lia
               | rewrite (testbit_small x 8 j) by lia
               | rewrite (testbit_small x 2 j) by lia
               | rewrite (testbit_small x 14 j) by lia ]
         end;
  rewrite ?orb_false_l, ?orb_false_r.

(** The command number always reads back, cut to its 8 bits. *)
Lemma IOC_NR_IOC (dir type nr size : Z) :
  _IOC_NR (_IOC dir type nr size) = nr mod 2 ^ 8.
Proof.
  unfold _IOC_NR. change _IOC_NRMASK with (Z.ones 8).
  change _IOC_NRSHIFT with 0.
  field_bits i; try reflexivity; try lia.
  bit_off. f_equal; lia.
Qed.

(** The magic reads back when the command number is a byte. *)
Lemma IOC_TYPE_IOC (dir type nr size : Z) :
  0 <= nr < 2 ^ 8 ->
  _IOC_TYPE (_IOC dir type nr size) = type mod 2 ^ 8.
Proof.
  intros Hnr. unfold _IOC_TYPE. change _IOC_TYPEMASK with (Z.ones 8).
  change _IOC_TYPESHIFT with 8.
  field_bits i; try reflexivity; try lia.
  bit_off. f_equal; lia.
Qed.

(** The size field holds the low 14 bits of the size, whatever the size
    is, when magic and command number are bytes. *)
Lemma IOC_SIZE_IOC (dir type nr size : Z) :
  0 <= type < 2 ^ 8 -> 0 <= nr < 2 ^ 8 ->
  _IOC_SIZE (_IOC dir type nr size) = size mod 2 ^ 14.
Proof.
  intros Ht Hnr. unfold _IOC_SIZE. change _IOC_SIZEMASK with (Z.ones 14).
  change _IOC_SIZESHIFT with 16.
  field_bits i; try reflexivity; try lia.
  bit_off. f_equal; lia.
Qed.

(** The direction field holds the direction ORed with whatever part of
    the size spills over its 14 bits. *)
Lemma IOC_DIR_IOC (dir type nr size : Z) :
  0 <= type < 2 ^ 8 -> 0 <= nr < 2 ^ 8 ->
  _IOC_DIR (_IOC dir type nr size) =
  Z.lor dir (Z.shiftr size _IOC_SIZEBITS) mod 2 ^ 2.
Proof.
  intros Ht Hnr. unfold _IOC_DIR. change _IOC_DIRMASK with (Z.ones 2).
  change _IOC_DIRSHIFT with 30. change _IOC_SIZEBITS with 14.
  field_bits i; try reflexivity; try lia.
  bit_off. f_equal; f_equal; lia.
Qed.

(** On any fields at all, the macro is the specification's packing cut
    to 32 bits. *)
Lemma IOC_wraps (dir type nr size : Z) :
  _IOC dir type nr size = Spec.spec_pack dir size type nr mod 2 ^ 32.
Proof.
  unfold _IOC, u32, Spec.spec_pack.
  change 0xFFFFFFFF with (Z.ones 32).
  rewrite Z.land_ones, !Z.shiftl_mul_pow2 by (vm_compute; congruence).
  change (2 ^ _IOC_NRSHIFT) with 1. rewrite Z.mul_1_r.
  change _IOC_DIRSHIFT with 30. change _IOC_TYPESHIFT with 8.
  change _IOC_SIZESHIFT with 16.
  f_equal. apply Z.bits_inj'; intros i _.
  rewrite !Z.lor_spec.
  destruct (Z.testbit (dir * 2 ^ 30) i), (Z.testbit (type * 2 ^ 8) i),
    (Z.testbit nr i), (Z.testbit (size * 2 ^ 16) i); reflexivity.
Qed.

(** On fields that fit their widths, the macro is the specification's
    packing: the 32-bit cut removes nothing. *)
Lemma IOC_spec_pack (dir type nr size : Z) :
  0 <= dir < 2 ^ 2 -> 0 <= type < 2 ^ 8 -> 0 <= nr < 2 ^ 8 ->
  0 <= size < 2 ^ 14 ->
  _IOC dir type nr size = Spec.spec_pack dir size type nr.
Proof.
  intros Hd Ht Hn Hs. unfold Spec.spec_pack.
  rewrite <- !Z.shiftl_mul_pow2 by lia.
  apply Z.bits_inj'; intros i Hi.
  rewrite IOC_testbit, !Z.lor_spec, !Z.shiftl_spec by lia.
  destruct (Z.ltb_spec i 32).
  - rewrite andb_true_l.
    destruct (Z.testbit dir (i - 30)), (Z.testbit type (i - 8)),
      (Z.testbit nr i), (Z.testbit size (i - 16)); reflexivity.
  - rewrite andb_false_l. bit_off. reflexivity.
Qed.

End EncodingFacts.

(* ===================================================================== *)
(** ** Facts about the report driver *)
(* ===================================================================== *)

Section ReportFacts.

Import Ioctl Report Spec.

Lemma append_nil_r (s : string) : s ++ "" = s.
Proof. induction s as [| c s IH]; simpl; [reflexivity | now rewrite IH]. Qed.

Lemma append_assoc (s t u : string) : (s ++ t) ++ u = s ++ (t ++ u).
Proof. induction s as [| c s IH]; simpl; [reflexivity | now rewrite IH]. Qed.

Lemma writes_ret {A : Type} (a : A) : writes (ret a) a "".
Proof. intros [a0 e0 o0]. unfold ret. simpl. now rewrite append_nil_r. Qed.

Lemma writes_printf (fmt : string) (arg : Z) :
  writes (printf fmt arg)
         (Z.of_nat (String.length (vformat fmt arg))) (vformat fmt arg).
Proof. intros w. reflexivity. Qed.

Lemma writes_bind {A B : Type} (c : IO A) (k : A -> IO B)
      (v1 : A) (o1 : string) (v2 : B) (o2 : string) :
  writes c v1 o1 -> writes (k v1) v2 o2 -> writes (bind c k) v2 (o1 ++ o2).
Proof.
  intros Hc Hk w. unfold bind. rewrite Hc, Hk. simpl.
  now rewrite append_assoc.
Qed.

(** [main] returns 0 and appends the report, from every world. *)
Lemma main_writes : writes main 0 report.
Proof.
  assert (H : exists out, writes main 0 out).
  { eexists. unfold main.
    repeat (eapply writes_bind; [apply writes_printf | cbv beta]).
    apply writes_ret. }
  destruct H as [out H].
  assert (E : report = out).
  { unfold report, run. now rewrite (H (mkWorld [] [] "")). }
  now rewrite E.
Qed.

Lemma run_eq (args : list string) (env : list (string * string)) :
  run args env = (0, report).
Proof. unfold run. now rewrite (main_writes (mkWorld args env "")). Qed.

(** The text of the report. *)
Lemma report_lines :
  lines report =
  [ "0x8044B401 GPIO_GET_CHIPINFO_IOCTL";
    "0xC100B405 GPIO_V2_GET_LINEINFO_IOCTL";
    "0xC100B406 GPIO_V2_GET_LINEINFO_WATCH_IOCTL";
    "0xC250B407 GPIO_V2_GET_LINE_IOCTL";
    "0xC004B40C GPIO_GET_LINEINFO_UNWATCH_IOCTL";
    "0xC110B40D GPIO_V2_LINE_SET_CONFIG_IOCTL";
    "0xC010B40E GPIO_V2_LINE_GET_VALUES_IOCTL";
    "0xC010B40F GPIO_V2_LINE_SET_VALUES_IOCTL" ].
Proof. vm_compute. reflexivity. Qed.

(** Every line of the report reads back, to the code the source passes
    to the [printf] that wrote it. *)
Lemma printed_eq :
  map parse_line (lines report) =
  [ Some (GPIO_GET_CHIPINFO_IOCTL, "GPIO_GET_CHIPINFO_IOCTL");
    Some (GPIO_V2_GET_LINEINFO_IOCTL, "GPIO_V2_GET_LINEINFO_IOCTL");
    Some (GPIO_V2_GET_LINEINFO_WATCH_IOCTL, "GPIO_V2_GET_LINEINFO_WATCH_IOCTL");
    Some (GPIO_V2_GET_LINE_IOCTL, "GPIO_V2_GET_LINE_IOCTL");
    Some (GPIO_GET_LINEINFO_UNWATCH_IOCTL, "GPIO_GET_LINEINFO_UNWATCH_IOCTL");
    Some (GPIO_V2_LINE_SET_CONFIG_IOCTL, "GPIO_V2_LINE_SET_CONFIG_IOCTL");
    Some (GPIO_V2_LINE_GET_VALUES_IOCTL, "GPIO_V2_LINE_GET_VALUES_IOCTL");
    Some (GPIO_V2_LINE_SET_VALUES_IOCTL, "GPIO_V2_LINE_SET_VALUES_IOCTL") ].
Proof. rewrite report_lines. vm_compute. reflexivity. Qed.

Lemma printed_codes_eq :
  printed_codes =
  [ GPIO_GET_CHIPINFO_IOCTL; GPIO_V2_GET_LINEINFO_IOCTL;
    GPIO_V2_GET_LINEINFO_WATCH_IOCTL; GPIO_V2_GET_LINE_IOCTL;
    GPIO_GET_LINEINFO_UNWATCH_IOCTL; GPIO_V2_LINE_SET_CONFIG_IOCTL;
    GPIO_V2_LINE_GET_VALUES_IOCTL; GPIO_V2_LINE_SET_VALUES_IOCTL ].
Proof. vm_compute. reflexivity. Qed.

(** The payload sizes on the target all fit the size field. *)
Lemma payload_fits (e : entry) :
  In e entries ->
  0 <= Layout.sizeof target_int_align (e_payload e) < 2 ^ _IOC_SIZEBITS.
Proof.
  intros H. repeat (destruct H as [<- | H]; [vm_compute; split; congruence |]).
  destruct H.
Qed.

End ReportFacts.

(* ===================================================================== *)
(** ** The properties of the report *)
(* ===================================================================== *)

Section Claims.

Import Layout Ioctl Report Spec.

(** C1.  Every line of the report reads back as the pair of a number and
    a name, and the number is the bitwise OR of the four shifted fields
    of that entry: direction in bits [31:30], payload size in bytes in
    the 14-bit field below, magic [0xB4] in the next 8 bits, command
    number in the low 8 bits.  The report is what [main] appends to its
    output stream. *)
Theorem C1_printed_value_is_packed_fields :
  map parse_line (lines report) =
    map (fun e => Some (entry_code e, e_name e)) entries
  /\ Forall (fun e => e_magic e = 0xB4
                      /\ 0 <= sizeof target_int_align (e_payload e) < 2 ^ 14)
            entries
  /\ forall w : world, stdout (snd (main w)) = stdout w ++ report.
Proof.
  split; [| split].
  - rewrite printed_eq. unfold entries. cbn [map].
    repeat f_equal;
      (unfold entry_code; cbn [e_dir e_payload e_magic e_nr direction_code];
       apply IOC_spec_pack;
       [ vm_compute; split; congruence
       | lia | lia
       | match goal with
         | |- _ <= _IOC_TYPECHECK ?t < _ =>
             vm_compute; split; congruence
         end ]).
  - apply Forall_forall. intros e He. split.
    + unfold entries in He. cbn [In] in He.
      repeat (destruct He as [<- | He]; [reflexivity |]). destruct He.
    + now apply payload_fits.
  - intros w. now rewrite (main_writes w).
Qed.

(** C2.  The chip-info code is built with direction READ, magic [0xB4],
    command [0x01] and the size of [struct gpiochip_info], which is 68
    bytes (two 32-byte character arrays and one 32-bit integer, without
    padding); the code is [0x8044B401], its four fields read back, and
    that is the number on the first line of the report. *)
Theorem C2_chipinfo_code :
  GPIO_GET_CHIPINFO_IOCTL =
    _IOC _IOC_READ 0xB4 0x01 (sizeof target_int_align gpiochip_info)
  /\ offsets_from target_int_align 0
       [ ("name", Tarray Tchar 32); ("label", Tarray Tchar 32);
         ("lines", Tu32) ]
     = [ ("name", 0); ("label", 32); ("lines", 64) ]
  /\ sizeof target_int_align gpiochip_info = 68
  /\ GPIO_GET_CHIPINFO_IOCTL = 0x8044B401
  /\ _IOC_DIR GPIO_GET_CHIPINFO_IOCTL = _IOC_READ
  /\ _IOC_SIZE GPIO_GET_CHIPINFO_IOCTL = 68
  /\ _IOC_TYPE GPIO_GET_CHIPINFO_IOCTL = 0xB4
  /\ _IOC_NR GPIO_GET_CHIPINFO_IOCTL = 0x01
  /\ hd_error (lines report) = Some "0x8044B401 GPIO_GET_CHIPINFO_IOCTL"
  /\ hd_error printed = Some (0x8044B401, "GPIO_GET_CHIPINFO_IOCTL").
Proof.
  assert (Hsize : sizeof target_int_align gpiochip_info = 68)
    by (vm_compute; reflexivity).
  assert (Hcode : GPIO_GET_CHIPINFO_IOCTL = _IOC _IOC_READ 0xB4 0x01 68)
    by (unfold GPIO_GET_CHIPINFO_IOCTL, _IOR, _IOC_TYPECHECK;
        now rewrite Hsize).
  repeat apply conj.
  - reflexivity.
  - vm_compute; reflexivity.
  - exact Hsize.
  - rewrite Hcode. vm_compute; reflexivity.
  - rewrite Hcode, IOC_DIR_IOC by lia. reflexivity.
  - rewrite Hcode, IOC_SIZE_IOC by lia. reflexivity.
  - rewrite Hcode, IOC_TYPE_IOC by lia. reflexivity.
  - rewrite Hcode, IOC_NR_IOC. reflexivity.
  - now rewrite report_lines.
  - unfold printed. rewrite report_lines. vm_compute; reflexivity.
Qed.

(** C3, as the specification words it: the report has seven lines.  It
    has not: [main] calls [printf] eight times. *)
Lemma C3_not_seven_lines : ~ report_of_lines 7 (snd (run [] [])).
Proof.
  intros (names & Hlen & Hall).
  apply Forall2_length in Hall.
  rewrite run_eq in Hall. cbn [snd] in Hall.
  rewrite report_lines in Hall. cbn [List.length] in Hall.
  rewrite Hlen in Hall. discriminate Hall.
Qed.

(** C3, amended.  Invoked without arguments, in any environment, the
    program writes exactly 8 lines, each terminated by a line feed and
    each of the form [0x], 8 zero-padded uppercase hexadecimal digits, a
    space and a symbolic name; the names are the eight names of the
    source, in the source's order. *)
Theorem C3_eight_report_lines (env : list (string * string)) :
  let out := snd (run [] env) in
  List.length (lines out) = 8%nat
  /\ Forall2 is_report_line ioctl_names (lines out)
  /\ unlines (lines out) = out
  /\ ioctl_names =
     [ "GPIO_GET_CHIPINFO_IOCTL"; "GPIO_V2_GET_LINEINFO_IOCTL";
       "GPIO_V2_GET_LINEINFO_WATCH_IOCTL"; "GPIO_V2_GET_LINE_IOCTL";
       "GPIO_GET_LINEINFO_UNWATCH_IOCTL"; "GPIO_V2_LINE_SET_CONFIG_IOCTL";
       "GPIO_V2_LINE_GET_VALUES_IOCTL"; "GPIO_V2_LINE_SET_VALUES_IOCTL" ].
Proof.
  rewrite run_eq. cbn [snd]. cbv zeta.
  split; [| split; [| split]].
  - now rewrite report_lines.
  - rewrite report_lines. unfold ioctl_names, entries. cbn [map e_name].
    repeat (apply Forall2_cons || apply Forall2_nil);
      match goal with
      | |- is_report_line _ ?l =>
          exists (substring 2 8 l);
          split; [reflexivity | split; [reflexivity |]];
          cbn [substring list_ascii_of_string];
          repeat constructor
      end.
  - vm_compute. reflexivity.
  - reflexivity.
Qed.

(** C4.  Whatever alignment the target gives a 32-bit integer, the
    line-config-attribute record is 8 bytes larger than the line-attribute
    record (24 = 16 + 8), and every payload record has one fixed size. *)
Theorem C4_record_sizes (a : Z) :
  int_align_ok a ->
  sizeof a gpio_v2_line_config_attribute = sizeof a gpio_v2_line_attribute + 8
  /\ sizeof a gpio_v2_line_attribute = 16
  /\ sizeof a gpio_v2_line_config_attribute = 24
  /\ alignof a gpio_v2_line_attribute = 8
  /\ map (fun r => (fst r, sizeof a (snd r))) payload_records =
     [ ("gpiochip_info", 68);
       ("gpio_v2_line_attribute", 16);
       ("gpio_v2_line_config_attribute", 24);
       ("gpio_v2_line_config", 272);
       ("gpio_v2_line_request", 592);
       ("gpio_v2_line_info", 256);
       ("gpio_v2_line_values", 16) ].
Proof.
  intros [-> | [-> | ->]]; repeat apply conj; vm_compute; reflexivity.
Qed.

(** The sizes on the target itself, where a 32-bit integer is 4-byte
    aligned. *)
Lemma C4_record_sizes_witness :
  int_align_ok target_int_align
  /\ sizeof target_int_align gpio_v2_line_config_attribute =
     sizeof target_int_align gpio_v2_line_attribute + 8.
Proof.
  assert (H : int_align_ok target_int_align) by (right; right; reflexivity).
  split; [exact H | exact (proj1 (C4_record_sizes target_int_align H))].
Defined.

(** C5.  With magic and command number in a byte: a payload size equal
    to the largest value of the size field, [2^14 - 1], reads back from
    the code unchanged, as does every smaller size; a larger size is
    packed by the same shift-and-OR formula, cut to 32 bits, with the
    size field keeping the low 14 bits of the size and the excess
    running into the direction bits.  The macro is a total function: it
    has no failure result and checks nothing. *)
Theorem C5_size_field_boundary (dir type nr : Z) :
  0 <= type < 2 ^ 8 -> 0 <= nr < 2 ^ 8 ->
  _IOC_SIZEMASK = 2 ^ 14 - 1
  /\ _IOC_SIZE (_IOC dir type nr _IOC_SIZEMASK) = _IOC_SIZEMASK
  /\ (forall size : Z,
        0 <= size <= _IOC_SIZEMASK ->
        _IOC_SIZE (_IOC dir type nr size) = size)
  /\ (forall size : Z,
        _IOC_SIZEMASK < size ->
        _IOC dir type nr size
        = Z.lor (Z.lor (Z.lor (dir * 2 ^ 30) (size * 2 ^ 16)) (type * 2 ^ 8))
                nr mod 2 ^ 32
        /\ _IOC_SIZE (_IOC dir type nr size) = size mod 2 ^ 14
        /\ _IOC_DIR (_IOC dir type nr size)
           = Z.lor dir (size / 2 ^ 14) mod 2 ^ 2).
Proof.
  intros Ht Hn.
  assert (Hmask : _IOC_SIZEMASK = 2 ^ 14 - 1) by reflexivity.
  assert (Hfit : forall size, 0 <= size <= _IOC_SIZEMASK ->
                 _IOC_SIZE (_IOC dir type nr size) = size).
  { intros size Hs. rewrite IOC_SIZE_IOC by assumption.
    apply Z.mod_small. rewrite Hmask in Hs. lia. }
  repeat apply conj.
  - exact Hmask.
  - apply Hfit. rewrite Hmask. lia.
  - exact Hfit.
  - intros size _. repeat apply conj.
    + apply IOC_wraps.
    + now apply IOC_SIZE_IOC.
    + rewrite IOC_DIR_IOC by assumption.
      change _IOC_SIZEBITS with 14. now rewrite Z.shiftr_div_pow2 by lia.
Qed.

(** The read-write request with command [0x07] and a payload of the
    largest size the field holds. *)
Lemma C5_size_field_boundary_witness :
  0 <= 0xB4 < 2 ^ 8 /\ 0 <= 0x07 < 2 ^ 8
  /\ _IOC_SIZE (_IOC 3 0xB4 0x07 _IOC_SIZEMASK) = _IOC_SIZEMASK.
Proof.
  assert (Ht : 0 <= 0xB4 < 2 ^ 8) by lia.
  assert (Hn : 0 <= 0x07 < 2 ^ 8) by lia.
  split; [exact Ht | split; [exact Hn |]].
  exact (proj1 (proj2 (C5_size_field_boundary 3 0xB4 0x07 Ht Hn))).
Defined.

(** C6.  Any two invocations, whatever their arguments and environment,
    return the same status and write the same bytes, the fixed report;
    run again on the same stream, the program appends the same bytes
    again. *)
Theorem C6_report_is_constant
        (args1 args2 : list string) (env1 env2 : list (string * string)) :
  run args1 env1 = run args2 env2
  /\ snd (run args1 env1) = report
  /\ forall w : world,
       stdout (snd (main (snd (main w)))) = (stdout w ++ report) ++ report.
Proof.
  repeat apply conj.
  - now rewrite !run_eq.
  - now rewrite run_eq.
  - intros w. now rewrite !main_writes.
Qed.

(** C7.  From every world [main] returns, and returns 0, after having
    appended to the output stream the eight lines of its fixed list of
    entries, one line feed after each, and nothing else; arguments and
    environment are left as they were.  So does every invocation: there
    is no other status and no path that ends before the last line. *)
Theorem C7_exit_status_zero (w : world) :
  let out :=
    unlines [ "0x8044B401 GPIO_GET_CHIPINFO_IOCTL";
              "0xC100B405 GPIO_V2_GET_LINEINFO_IOCTL";
              "0xC100B406 GPIO_V2_GET_LINEINFO_WATCH_IOCTL";
              "0xC250B407 GPIO_V2_GET_LINE_IOCTL";
              "0xC004B40C GPIO_GET_LINEINFO_UNWATCH_IOCTL";
              "0xC110B40D GPIO_V2_LINE_SET_CONFIG_IOCTL";
              "0xC010B40E GPIO_V2_LINE_GET_VALUES_IOCTL";
              "0xC010B40F GPIO_V2_LINE_SET_VALUES_IOCTL" ] in
  fst (main w) = 0
  /\ main w = (0, mkWorld (argv w) (environ w) (stdout w ++ out))
  /\ run (argv w) (environ w) = (0, out)
  /\ map parse_line (lines out)
     = map (fun e => Some (entry_code e, e_name e)) entries
  /\ List.length (lines out) = List.length entries.
Proof.
  intros out.
  assert (Hout : report = out) by (vm_compute; reflexivity).
  repeat apply conj.
  - now rewrite main_writes.
  - rewrite <- Hout. apply main_writes.
  - rewrite <- Hout. apply run_eq.
  - vm_compute. reflexivity.
  - vm_compute. reflexivity.
Qed.

(** C8.  The command numbers of the printed codes are [0x01], [0x05],
    [0x06], [0x07], [0x0C], [0x0D], [0x0E], [0x0F], pairwise distinct;
    hence the printed codes are pairwise distinct. *)
Theorem C8_command_numbers_distinct :
  map _IOC_NR printed_codes = [0x01; 0x05; 0x06; 0x07; 0x0C; 0x0D; 0x0E; 0x0F]
  /\ NoDup (map _IOC_NR printed_codes)
  /\ NoDup printed_codes.
Proof.
  assert (Hnr : map _IOC_NR printed_codes
                = [0x01; 0x05; 0x06; 0x07; 0x0C; 0x0D; 0x0E; 0x0F]).
  { rewrite printed_codes_eq. cbn [map].
    unfold GPIO_GET_CHIPINFO_IOCTL, GPIO_GET_LINEINFO_UNWATCH_IOCTL,
      GPIO_V2_GET_LINEINFO_IOCTL, GPIO_V2_GET_LINEINFO_WATCH_IOCTL,
      GPIO_V2_GET_LINE_IOCTL, GPIO_V2_LINE_SET_CONFIG_IOCTL,
      GPIO_V2_LINE_GET_VALUES_IOCTL, GPIO_V2_LINE_SET_VALUES_IOCTL,
      _IOR, _IOWR.
    rewrite !IOC_NR_IOC. reflexivity. }
  assert (Hnd : NoDup (map _IOC_NR printed_codes)).
  { rewrite Hnr.
    repeat (apply NoDup_cons; [cbn [In]; intuition lia |]).
    apply NoDup_nil. }
  repeat apply conj.
  - exact Hnr.
  - exact Hnd.
  - exact (NoDup_map_inv _IOC_NR printed_codes Hnd).
Qed.

(** C9.  Each of the eight printed codes has the magic [0xB4] in bits
    [15:8]. *)
Theorem C9_magic_in_every_code :
  List.length printed_codes = 8%nat
  /\ Forall (fun c => Z.land (Z.shiftr c 8) 0xFF = 0xB4) printed_codes.
Proof.
  rewrite printed_codes_eq. split; [reflexivity |].
  repeat (apply Forall_cons || apply Forall_nil);
    match goal with
    | |- Z.land (Z.shiftr ?c 8) 0xFF = _ =>
        change (_IOC_TYPE c = 0xB4)
    end;
    unfold GPIO_GET_CHIPINFO_IOCTL, GPIO_GET_LINEINFO_UNWATCH_IOCTL,
      GPIO_V2_GET_LINEINFO_IOCTL, GPIO_V2_GET_LINEINFO_WATCH_IOCTL,
      GPIO_V2_GET_LINE_IOCTL, GPIO_V2_LINE_SET_CONFIG_IOCTL,
      GPIO_V2_LINE_GET_VALUES_IOCTL, GPIO_V2_LINE_SET_VALUES_IOCTL,
      _IOR, _IOWR;
    rewrite IOC_TYPE_IOC by lia; reflexivity.
Qed.

(** C10.  The first printed code, [GPIO_GET_CHIPINFO_IOCTL], has
    direction READ and is the only one that has; each of the other seven
    has direction READ|WRITE, bits 31 and 30 both set. *)
Theorem C10_directions :
  hd_error printed
    = Some (GPIO_GET_CHIPINFO_IOCTL, "GPIO_GET_CHIPINFO_IOCTL")
  /\ _IOC_DIR GPIO_GET_CHIPINFO_IOCTL = _IOC_READ
  /\ filter (fun e => _IOC_DIR (fst e) =? _IOC_READ) printed
     = [ (GPIO_GET_CHIPINFO_IOCTL, "GPIO_GET_CHIPINFO_IOCTL") ]
  /\ List.length (tl printed) = 7%nat
  /\ Forall (fun e => _IOC_DIR (fst e) = Z.lor _IOC_READ _IOC_WRITE
                      /\ Z.testbit (fst e) 31 = true
                      /\ Z.testbit (fst e) 30 = true)
            (tl printed).
Proof.
  assert (Hp : printed =
    [ (GPIO_GET_CHIPINFO_IOCTL, "GPIO_GET_CHIPINFO_IOCTL");
      (GPIO_V2_GET_LINEINFO_IOCTL, "GPIO_V2_GET_LINEINFO_IOCTL");
      (GPIO_V2_GET_LINEINFO_WATCH_IOCTL, "GPIO_V2_GET_LINEINFO_WATCH_IOCTL");
      (GPIO_V2_GET_LINE_IOCTL, "GPIO_V2_GET_LINE_IOCTL");
      (GPIO_GET_LINEINFO_UNWATCH_IOCTL, "GPIO_GET_LINEINFO_UNWATCH_IOCTL");
      (GPIO_V2_LINE_SET_CONFIG_IOCTL, "GPIO_V2_LINE_SET_CONFIG_IOCTL");
      (GPIO_V2_LINE_GET_VALUES_IOCTL, "GPIO_V2_LINE_GET_VALUES_IOCTL");
      (GPIO_V2_LINE_SET_VALUES_IOCTL, "GPIO_V2_LINE_SET_VALUES_IOCTL") ])
    by (vm_compute; reflexivity).
  rewrite Hp. cbn [hd_error tl List.length].
  repeat apply conj; try reflexivity.
  repeat (apply Forall_cons || apply Forall_nil);
    cbn [fst]; repeat apply conj; vm_compute; reflexivity.
Qed.

End Claims.

(* ===================================================================== *)
(** ** Further properties: the records *)
(* ===================================================================== *)

Section RecordProperties.

Import Layout Ioctl Tiling.

(** X1.  On every target alignment of a 32-bit integer, the scalars of
    each payload record tile it: the first starts at offset 0, each next
    one starts where the one before ended, and the last ends at the
    record's size.  No byte of a record is padding the compiler put in;
    the source's explicit [padding] members account for all of it.  Each
    scalar also lies at a multiple of its own size, so the layout does
    not depend on the target. *)
Theorem X1_records_have_no_implicit_padding (a : Z) :
  int_align_ok a ->
  Forall (fun r =>
            tiles a 0 (leaves a 0 (snd r)) = Some (sizeof a (snd r))
            /\ forallb naturally_aligned (leaves a 0 (snd r)) = true
            /\ leaves a 0 (snd r) = leaves target_int_align 0 (snd r))
         payload_records.
Proof.
  intros [-> | [-> | ->]]; unfold payload_records;
    repeat (apply Forall_cons || apply Forall_nil);
    cbn [snd]; repeat apply conj; vm_compute; reflexivity.
Qed.

(** On the target itself. *)
Lemma X1_records_have_no_implicit_padding_witness :
  int_align_ok 4
  /\ tiles 4 0 (leaves 4 0 gpiochip_info) = Some (sizeof 4 gpiochip_info).
Proof.
  assert (H : int_align_ok 4) by (right; right; reflexivity).
  split; [exact H |].
  exact (proj1 (Forall_inv (X1_records_have_no_implicit_padding 4 H))).
Defined.

End RecordProperties.

(* ===================================================================== *)
(** ** Further properties: the request codes *)
(* ===================================================================== *)

Section CodeProperties.

Import Layout Ioctl Report Spec Tiling.

(** Decoding undoes packing, field by field, when the fields fit. *)
Lemma IOC_decode (dir type nr size : Z) :
  fields_fit dir type nr size ->
  _IOC_DIR (_IOC dir type nr size) = dir
  /\ _IOC_TYPE (_IOC dir type nr size) = type
  /\ _IOC_NR (_IOC dir type nr size) = nr
  /\ _IOC_SIZE (_IOC dir type nr size) = size.
Proof.
  intros (Hd & Ht & Hn & Hs). repeat apply conj.
  - rewrite IOC_DIR_IOC by assumption.
    rewrite Z.shiftr_div_pow2 by (vm_compute; congruence).
    change _IOC_SIZEBITS with 14.
    rewrite (Z.div_small size) by lia.
    rewrite Z.lor_0_r. apply Z.mod_small. lia.
  - rewrite IOC_TYPE_IOC by assumption. apply Z.mod_small. lia.
  - rewrite IOC_NR_IOC. apply Z.mod_small. lia.
  - rewrite IOC_SIZE_IOC by assumption. apply Z.mod_small. lia.
Qed.

(** X2.  Round trip of the packing (the macros are those of the system
    header): when direction, magic, command number and size fit their
    fields, the four decoding macros give them back from the code, and
    the code is a 32-bit number. *)
Theorem X2_decode_after_encode (dir type nr size : Z) :
  fields_fit dir type nr size ->
  _IOC_DIR (_IOC dir type nr size) = dir
  /\ _IOC_TYPE (_IOC dir type nr size) = type
  /\ _IOC_NR (_IOC dir type nr size) = nr
  /\ _IOC_SIZE (_IOC dir type nr size) = size
  /\ 0 <= _IOC dir type nr size < 2 ^ 32.
Proof.
  intros Hfit.
  destruct (IOC_decode dir type nr size Hfit) as (Hd & Ht & Hn & Hs).
  repeat apply conj; try assumption.
  - rewrite IOC_wraps. apply Z.mod_pos_bound. lia.
  - rewrite IOC_wraps. apply Z.mod_pos_bound. lia.
Qed.

(** The line request: read-write, command [0x07], 592 bytes. *)
Lemma X2_decode_after_encode_witness :
  fields_fit 3 0xB4 0x07 592
  /\ _IOC_SIZE (_IOC 3 0xB4 0x07 592) = 592.
Proof.
  assert (H : fields_fit 3 0xB4 0x07 592) by (unfold fields_fit; lia).
  split; [exact H |].
  exact (proj1 (proj2 (proj2 (proj2
           (X2_decode_after_encode 3 0xB4 0x07 592 H))))).
Defined.

(** X3.  Two requests whose fields fit get the same code only when they
    agree in direction, magic, command number and payload size: the
    packing loses nothing. *)
Theorem X3_encoding_injective (d1 t1 n1 s1 d2 t2 n2 s2 : Z) :
  fields_fit d1 t1 n1 s1 -> fields_fit d2 t2 n2 s2 ->
  _IOC d1 t1 n1 s1 = _IOC d2 t2 n2 s2 ->
  d1 = d2 /\ t1 = t2 /\ n1 = n2 /\ s1 = s2.
Proof.
  intros H1 H2 E.
  destruct (IOC_decode d1 t1 n1 s1 H1) as (Hd1 & Ht1 & Hn1 & Hs1).
  destruct (IOC_decode d2 t2 n2 s2 H2) as (Hd2 & Ht2 & Hn2 & Hs2).
  rewrite E in Hd1, Ht1, Hn1, Hs1.
  repeat apply conj; congruence.
Qed.

(** The get-values request against itself. *)
Lemma X3_encoding_injective_witness :
  fields_fit 3 0xB4 0x0E 16 /\ fields_fit 3 0xB4 0x0E 16
  /\ (3 = 3 /\ 0xB4 = 0xB4 /\ 0x0E = 0x0E /\ 16 = 16).
Proof.
  assert (H : fields_fit 3 0xB4 0x0E 16) by (unfold fields_fit; lia).
  split; [exact H | split; [exact H |]].
  exact (X3_encoding_injective 3 0xB4 0x0E 16 3 0xB4 0x0E 16 H H eq_refl).
Defined.

(** X4.  The report can be read back to the source's [#define]s: the
    number on each line decodes to the direction, magic, command number
    and payload size of the request named on that line. *)
Theorem X4_report_decodes_to_definitions :
  map (fun p => (snd p, _IOC_DIR (fst p), _IOC_TYPE (fst p),
                 _IOC_NR (fst p), _IOC_SIZE (fst p)))
      printed
  = map (fun e => (e_name e, direction_code (e_dir e), e_magic e, e_nr e,
                   sizeof target_int_align (e_payload e)))
        entries.
Proof.
  assert (Hp : map Some printed = map parse_line (lines report)).
  { unfold printed. rewrite report_lines. vm_compute. reflexivity. }
  assert (Hq : printed = map (fun e => (entry_code e, e_name e)) entries).
  { apply (f_equal (map (fun o => match o with
                                  | Some x => x
                                  | None => (0, "")
                                  end))) in Hp.
    rewrite map_map in Hp. cbn beta iota in Hp. rewrite map_id in Hp.
    rewrite Hp, printed_eq. vm_compute. reflexivity. }
  rewrite Hq, map_map. cbn [fst snd].
  apply map_ext_in. intros e He.
  assert (Hfit : fields_fit (direction_code (e_dir e)) (e_magic e) (e_nr e)
                            (sizeof target_int_align (e_payload e))).
  { pose proof (payload_fits e He) as Hs. change _IOC_SIZEBITS with 14 in Hs.
    unfold entries in He. cbn [In] in He.
    repeat (destruct He as [<- | He];
            [cbn [e_dir e_magic e_nr direction_code] in *;
             unfold fields_fit; repeat split; (lia || apply Hs) |]).
    destruct He. }
  assert (Hc : entry_code e
               = _IOC (direction_code (e_dir e)) (e_magic e) (e_nr e)
                      (sizeof target_int_align (e_payload e))).
  { unfold entry_code. symmetry.
    destruct Hfit as (? & ? & ? & ?). now apply IOC_spec_pack. }
  rewrite Hc.
  destruct (IOC_decode _ _ _ _ Hfit) as (-> & -> & -> & ->).
  reflexivity.
Qed.

End CodeProperties.

(* ===================================================================== *)
(** ** Further properties: the printed line *)
(* ===================================================================== *)

Section LineProperties.

Import Ioctl Report Spec.

Lemma length_append (s t : string) :
  String.length (s ++ t) = (String.length s + String.length t)%nat.
Proof. induction s as [| c s IH]; simpl; [reflexivity | now rewrite IH]. Qed.

Lemma list_ascii_append (s t : string) :
  list_ascii_of_string (s ++ t)
  = (list_ascii_of_string s ++ list_ascii_of_string t)%list.
Proof. induction s as [| c s IH]; simpl; [reflexivity | now rewrite IH]. Qed.

Lemma hex_value_digit (d : Z) :
  0 <= d < 16 -> hex_value (hex_digit d) = Some d.
Proof.
  intros H.
  assert (C : d = 0 \/ d = 1 \/ d = 2 \/ d = 3 \/ d = 4 \/ d = 5 \/ d = 6
              \/ d = 7 \/ d = 8 \/ d = 9 \/ d = 10 \/ d = 11 \/ d = 12
              \/ d = 13 \/ d = 14 \/ d = 15) by lia.
  repeat (destruct C as [-> | C]; [reflexivity |]). now subst.
Qed.

(** Reading [n + m] digits is reading [n], then [m]. *)
Lemma read_hex_plus (n m : nat) (s : string) (acc : Z) :
  read_hex (n + m) s acc =
  match read_hex n s acc with
  | Some (a, r) => read_hex m r a
  | None => None
  end.
Proof.
  revert s acc. induction n as [| n IH]; intros s acc; [reflexivity |].
  cbn [Nat.add read_hex]. destruct s as [| c s]; [reflexivity |].
  destruct (hex_value c); [apply IH | reflexivity].
Qed.

Lemma reads_digit (x : Z) :
  0 <= x < 16 -> reads (String (hex_digit x) "") x.
Proof.
  intros Hx. split.
  - constructor; [| constructor].
    unfold is_upper_hex. now rewrite hex_value_digit.
  - intros acc rest. cbn [String.length append read_hex].
    rewrite hex_value_digit by assumption.
    f_equal. f_equal. change (16 ^ Z.of_nat 1) with 16. lia.
Qed.

Lemma reads_app (d1 d2 : string) (v1 v2 : Z) :
  reads d1 v1 -> reads d2 v2 ->
  reads (d1 ++ d2) (v1 * 16 ^ Z.of_nat (String.length d2) + v2).
Proof.
  intros [F1 R1] [F2 R2]. split.
  - rewrite list_ascii_append. apply Forall_app. now split.
  - intros acc rest.
    rewrite length_append, read_hex_plus, append_assoc, R1, R2.
    f_equal. f_equal. rewrite Nat2Z.inj_add, Z.pow_add_r by lia. ring.
Qed.

Lemma reads_zeros (n : nat) : reads (zeros n) 0.
Proof.
  induction n as [| n IH].
  - split; [constructor |]. intros acc rest. cbn. f_equal. f_equal. lia.
  - change (zeros (S n)) with (String (hex_digit 0) "" ++ zeros n).
    pose proof (reads_app _ _ _ _ (reads_digit 0 ltac:(lia)) IH) as H.
    now rewrite Z.mul_0_l, Z.add_0_l in H.
Qed.

(** The digits [to_hex_fuel] puts before its accumulator, given fuel for
    them: they read back to [v], and are no more than [v] needs. *)
Lemma to_hex_fuel_reads (fuel : nat) :
  forall (v : Z) (acc : string),
    0 <= v < 16 ^ Z.of_nat (S fuel) ->
    exists d : string,
      to_hex_fuel fuel v acc = d ++ acc
      /\ reads d v
      /\ forall n : nat, (1 <= n)%nat -> v < 16 ^ Z.of_nat n ->
                         (String.length d <= n)%nat.
Proof.
  induction fuel as [| fuel IH]; intros v acc Hv.
  - change (16 ^ Z.of_nat 1) with 16 in Hv.
    exists (String (hex_digit v) ""). split; [| split].
    + cbn [to_hex_fuel append]. now rewrite Z.mod_small by lia.
    + now apply reads_digit.
    + intros n Hn _. cbn [String.length]. lia.
  - cbn [to_hex_fuel].
    assert (Hm : 0 <= v mod 16 < 16) by (apply Z.mod_pos_bound; lia).
    destruct (Z.eqb_spec (v / 16) 0) as [Hq | Hq].
    + assert (Hsmall : v = v mod 16)
        by (rewrite (Z.div_mod v 16) at 1 by lia; lia).
      exists (String (hex_digit (v mod 16)) ""). split; [| split].
      * reflexivity.
      * rewrite Hsmall at 2. now apply reads_digit.
      * intros n Hn _. cbn [String.length]. lia.
    + assert (Hv' : 0 <= v / 16 < 16 ^ Z.of_nat (S fuel)).
      { split; [apply Z.div_pos; lia |].
        apply Z.div_lt_upper_bound; [lia |].
        rewrite (Nat2Z.inj_succ (S fuel)), Z.pow_succ_r in Hv by lia.
        lia. }
      destruct (IH (v / 16) (String (hex_digit (v mod 16)) acc) Hv')
        as (d & Hd & Hr & Hlen).
      exists (d ++ String (hex_digit (v mod 16)) ""). split; [| split].
      * rewrite Hd, append_assoc. reflexivity.
      * pose proof (reads_app _ _ _ _ Hr (reads_digit _ Hm)) as H.
        cbn [String.length] in H. change (16 ^ Z.of_nat 1) with 16 in H.
        replace (v / 16 * 16 + v mod 16) with v in H
          by (rewrite (Z.div_mod v 16) at 1 by lia; lia).
        exact H.
      * intros n Hn Hlt. rewrite length_append. cbn [String.length].
        destruct n as [| [| n]]; [lia | |].
        -- change (16 ^ Z.of_nat 1) with 16 in Hlt.
           assert (v / 16 = 0) by (apply Z.div_small; lia). contradiction.
        -- assert (Hlt' : v / 16 < 16 ^ Z.of_nat (S n)).
           { apply Z.div_lt_upper_bound; [lia |].
             rewrite (Nat2Z.inj_succ (S n)), Z.pow_succ_r in Hlt by lia.
             lia. }
           pose proof (Hlen (S n) ltac:(lia) Hlt'). lia.
Qed.

(** The eight columns [%08X] writes for a 32-bit number. *)
Lemma hex8_reads (v : Z) :
  0 <= v < 2 ^ 32 ->
  String.length (zero_pad 8 (to_hex v)) = 8%nat
  /\ reads (zero_pad 8 (to_hex v)) v.
Proof.
  intros Hv.
  assert (Hfuel : 0 <= v < 16 ^ Z.of_nat (S (Z.to_nat (Z.log2 v)))).
  { split; [lia |].
    destruct (Z.eq_dec v 0) as [-> | Hnz]; [reflexivity |].
    pose proof (Z.log2_nonneg v) as Hl.
    pose proof (Z.log2_spec v ltac:(lia)) as [_ Hup].
    rewrite Nat2Z.inj_succ, Z2Nat.id by assumption.
    eapply Z.lt_le_trans; [exact Hup |].
    apply Z.pow_le_mono_l. lia. }
  destruct (to_hex_fuel_reads _ v "" Hfuel) as (d & Hd & Hr & Hlen).
  rewrite append_nil_r in Hd.
  assert (Hl8 : (String.length d <= 8)%nat)
    by (apply Hlen; [lia | change (16 ^ Z.of_nat 8) with (2 ^ 32); lia]).
  unfold zero_pad, to_hex. rewrite Hd. split.
  - rewrite length_append.
    assert (Hz : forall n, String.length (zeros n) = n)
      by (induction n as [| n IHn]; simpl; [reflexivity | now rewrite IHn]).
    rewrite Hz. lia.
  - pose proof (reads_app _ _ _ _ (reads_zeros (8 - String.length d)) Hr)
      as H.
    now rewrite Z.mul_0_l, Z.add_0_l in H.
Qed.

Lemma u32_range (z : Z) : 0 <= u32 z < 2 ^ 32.
Proof.
  unfold u32. change 0xFFFFFFFF with (Z.ones 32).
  rewrite Z.land_ones by lia. apply Z.mod_pos_bound. lia.
Qed.

(** X5.  Whatever number a [printf] of [main] is handed, it writes one
    line: [0x], exactly eight uppercase hexadecimal digits, a space, the
    name and a line feed; and the line reads back to the number modulo
    [2^32] and the name.  So the width of the report's number column is
    fixed, and no line can lose or blur its code. *)
Theorem X5_printf_line_reads_back (arg : Z) :
  let d := zero_pad 8 (to_hex (u32 arg)) in
  String.length d = 8%nat
  /\ Forall (fun c => is_upper_hex c = true) (list_ascii_of_string d)
  /\ (forall name : string,
        parse_line ("0x" ++ d ++ " " ++ name) = Some (u32 arg, name))
  /\ Forall (fun name =>
               vformat (cstr ("0x%08X " ++ name ++ "\n")) arg
               = "0x" ++ d ++ " " ++ name ++ String LF "")
            ioctl_names.
Proof.
  intros d.
  destruct (hex8_reads (u32 arg) (u32_range arg)) as (Hlen & Hhex & Hread).
  fold d in Hlen, Hhex, Hread.
  split; [exact Hlen | split; [exact Hhex | split]].
  - intros name.
    change ("0x" ++ d ++ " " ++ name)
      with (String "0" (String "x" (d ++ String " " name))).
    pose proof (Hread 0 (String " " name)) as H. rewrite Hlen in H.
    cbn [parse_line]. rewrite H. repeat f_equal; lia.
  - unfold ioctl_names, entries. cbn [map e_name].
    repeat (apply Forall_cons || apply Forall_nil); reflexivity.
Qed.

End LineProperties.

(* ===================================================================== *)
(** ** Further properties: the layout rules *)
(* ===================================================================== *)

Section LayoutProperties.

Import Layout Tiling.

(** Induction on object types, with the members of a struct or union
    under the induction hypothesis. *)
Lemma ctype_nested_ind (P : ctype -> Prop) :
  P Tchar -> P Tu32 -> P Ts32 -> P Taligned_u64 ->
  (forall elt len, P elt -> P (Tarray elt len)) ->
  (forall fs, Forall (fun f => P (snd f)) fs -> P (Tstruct fs)) ->
  (forall fs, Forall (fun f => P (snd f)) fs -> P (Tunion fs)) ->
  forall t, P t.
Proof.
  intros Hc Hu Hs H64 Harr Hst Hun.
  fix IH 1. intros [ | | | | elt len | fs | fs].
  - exact Hc.
  - exact Hu.
  - exact Hs.
  - exact H64.
  - apply Harr, IH.
  - apply Hst. induction fs as [| [name t] fs IHfs]; constructor.
    + apply IH.
    + exact IHfs.
  - apply Hun. induction fs as [| [name t] fs IHfs]; constructor.
    + apply IH.
    + exact IHfs.
Qed.

Lemma align_up_divide (off al : Z) : (al | align_up off al).
Proof. unfold align_up. apply Z.divide_factor_r. Qed.

Lemma align_up_bounds (off al : Z) :
  0 < al -> off <= align_up off al < off + al.
Proof.
  intros Hal. unfold align_up.
  pose proof (Z.div_mod (off + al - 1) al ltac:(lia)) as E.
  pose proof (Z.mod_pos_bound (off + al - 1) al Hal) as B.
  nia.
Qed.

Section WithAlign.

Variable a : Z.
Hypothesis Ha : int_align_ok a.

Lemma alignof_value (t : ctype) : align_value (alignof a t).
Proof.
  assert (Hfold : forall fs : list (string * ctype),
             Forall (fun f => align_value (alignof a (snd f))) fs ->
             align_value
               (fold_right (fun f m => Z.max (alignof a (snd f)) m) 1 fs)).
  { induction 1 as [| f fs Hf _ IH]; cbn [fold_right].
    - left; reflexivity.
    - unfold align_value in *. lia. }
  induction t using ctype_nested_ind; cbn [alignof]; try (now apply Hfold).
  - left; reflexivity.
  - unfold align_value. destruct Ha as [-> | [-> | ->]]; lia.
  - unfold align_value. destruct Ha as [-> | [-> | ->]]; lia.
  - unfold align_value. lia.
  - assumption.
Qed.

Lemma alignof_pos (t : ctype) : 0 < alignof a t.
Proof. pose proof (alignof_value t) as H. unfold align_value in H. lia. Qed.

Lemma sizeof_divide (t : ctype) : (alignof a t | sizeof a t).
Proof.
  induction t using ctype_nested_ind.
  - apply Z.divide_refl.
  - cbn. destruct Ha as [-> | [-> | ->]];
      [exists 4 | exists 2 | exists 1]; reflexivity.
  - cbn. destruct Ha as [-> | [-> | ->]];
      [exists 4 | exists 2 | exists 1]; reflexivity.
  - apply Z.divide_refl.
  - cbn [alignof sizeof]. now apply Z.divide_mul_r.
  - cbn [sizeof]. apply align_up_divide.
  - cbn [sizeof]. apply align_up_divide.
Qed.

Lemma members_nonneg (fs : list (string * ctype)) :
  Forall (fun f => well_formed (snd f) = true -> 0 <= sizeof a (snd f)) fs ->
  forallb (fun f => well_formed (snd f)) fs = true ->
  Forall (fun f => 0 <= sizeof a (snd f)) fs.
Proof.
  induction 1 as [| f fs Hf _ IH]; intros Hwf; constructor;
    cbn [forallb] in Hwf; apply andb_true_iff in Hwf as [H1 H2]; auto.
Qed.

(** Laying members out never moves the running offset back. *)
Lemma layout_end_ge (fs : list (string * ctype)) :
  Forall (fun f => 0 <= sizeof a (snd f)) fs ->
  forall off : Z,
    off <= fold_left (fun off f => align_up off (alignof a (snd f))
                                   + sizeof a (snd f)) fs off.
Proof.
  induction 1 as [| f fs Hf _ IH]; intros off; cbn [fold_left].
  - lia.
  - pose proof (align_up_bounds off (alignof a (snd f)) (alignof_pos _)).
    specialize (IH (align_up off (alignof a (snd f)) + sizeof a (snd f))).
    lia.
Qed.

Lemma sizeof_nonneg (t : ctype) : well_formed t = true -> 0 <= sizeof a t.
Proof.
  induction t as [ | | | | elt len IH | fs IH | fs IH]
    using ctype_nested_ind; intros Hwf; cbn [sizeof]; try lia.
  - cbn [well_formed] in Hwf. apply andb_true_iff in Hwf as [Hl He].
    apply Z.leb_le in Hl. specialize (IH He). nia.
  - cbn [well_formed] in Hwf.
    pose proof (layout_end_ge fs (members_nonneg fs IH Hwf) 0) as Hend.
    match goal with
    | |- 0 <= align_up ?x ?al =>
        pose proof (align_up_bounds x al (alignof_pos (Tstruct fs)))
    end.
    lia.
  - match goal with
    | |- 0 <= align_up ?x ?al =>
        pose proof (align_up_bounds x al (alignof_pos (Tunion fs)));
        assert (0 <= x)
          by (clear; induction fs as [| f fs IHfs]; cbn [fold_right]; lia)
    end.
    lia.
Qed.

Lemma wf_members_nonneg (fs : list (string * ctype)) :
  forallb (fun f => well_formed (snd f)) fs = true ->
  Forall (fun f => 0 <= sizeof a (snd f)) fs.
Proof.
  intros Hwf. apply Forall_forall. intros f Hf.
  apply sizeof_nonneg. rewrite forallb_forall in Hwf. now apply Hwf.
Qed.

(** No member lies before the offset the layout starts from. *)
Lemma offsets_ge (fs : list (string * ctype)) :
  Forall (fun f => 0 <= sizeof a (snd f)) fs ->
  forall (off : Z) (j : nat) (name : string) (o : Z),
    nth_error (offsets_from a off fs) j = Some (name, o) -> off <= o.
Proof.
  induction 1 as [| [n0 t0] fs Hf _ IH]; intros off j name o Hj.
  - destruct j; discriminate Hj.
  - cbn [offsets_from] in Hj. cbn [snd] in Hf.
    pose proof (align_up_bounds off (alignof a t0) (alignof_pos _)).
    destruct j as [| j]; cbn [nth_error] in Hj.
    + injection Hj as _ <-. lia.
    + apply IH in Hj. lia.
Qed.

(** Where the layout puts a member: at a multiple of its alignment, not
    before the start, ending before every later member and before the
    end of the layout. *)
Lemma member_placed (fs : list (string * ctype)) :
  Forall (fun f => 0 <= sizeof a (snd f)) fs ->
  forall (off : Z) (i : nat) (name : string) (t : ctype),
    nth_error fs i = Some (name, t) ->
    exists o : Z,
      nth_error (offsets_from a off fs) i = Some (name, o)
      /\ off <= o
      /\ (alignof a t | o)
      /\ o + sizeof a t
         <= fold_left (fun off f => align_up off (alignof a (snd f))
                                    + sizeof a (snd f)) fs off
      /\ forall (j : nat) (name' : string) (o' : Z),
           (i < j)%nat ->
           nth_error (offsets_from a off fs) j = Some (name', o') ->
           o + sizeof a t <= o'.
Proof.
  induction 1 as [| [n0 t0] fs Hf Hfs IH]; intros off i name t Hi.
  - destruct i; discriminate Hi.
  - cbn [snd] in Hf. cbn [offsets_from fold_left snd].
    pose proof (align_up_bounds off (alignof a t0) (alignof_pos _)) as Hb.
    destruct i as [| i]; cbn [nth_error] in Hi |- *.
    + injection Hi as <- <-.
      exists (align_up off (alignof a t0)). repeat apply conj.
      * reflexivity.
      * lia.
      * apply align_up_divide.
      * apply (layout_end_ge fs Hfs).
      * intros [| j] name' o' Hij Hj; [lia |].
        cbn [nth_error] in Hj. now apply (offsets_ge fs Hfs) in Hj.
    + destruct (IH (align_up off (alignof a t0) + sizeof a t0) i name t Hi)
        as (o & Ho & Hge & Hdiv & Hend & Hlater).
      exists o. repeat apply conj; try assumption.
      * lia.
      * intros [| j] name' o' Hij Hj; [lia |].
        cbn [nth_error] in Hj. apply (Hlater j name' o'); [lia | exact Hj].
Qed.

End WithAlign.

(** X6.  For every object type built from the source's scalars: its
    alignment is 1, 2, 4 or 8, its size is a multiple of its alignment
    (so the elements of an array of records stay aligned), and its size
    is not negative when no array length is. *)
Theorem X6_size_is_multiple_of_alignment (a : Z) (t : ctype) :
  int_align_ok a ->
  align_value (alignof a t)
  /\ (alignof a t | sizeof a t)
  /\ (well_formed t = true -> 0 <= sizeof a t).
Proof.
  intros Ha. repeat apply conj.
  - now apply alignof_value.
  - now apply sizeof_divide.
  - now apply sizeof_nonneg.
Qed.

(** The largest record of the source. *)
Lemma X6_size_is_multiple_of_alignment_witness :
  int_align_ok 4
  /\ (alignof 4 gpio_v2_line_request | sizeof 4 gpio_v2_line_request).
Proof.
  assert (H : int_align_ok 4) by (right; right; reflexivity).
  split; [exact H |].
  exact (proj1 (proj2
           (X6_size_is_multiple_of_alignment 4 gpio_v2_line_request H))).
Defined.

(** X7.  In every struct with well-formed members, each member is placed
    at an offset that is not negative and a multiple of the member's
    alignment, ends before every later member begins, and ends within
    the size of the struct: members never overlap and never stick out. *)
Theorem X7_members_aligned_and_disjoint
        (a : Z) (fs : list (string * ctype))
        (i : nat) (name : string) (t : ctype) :
  int_align_ok a ->
  forallb (fun f => well_formed (snd f)) fs = true ->
  nth_error fs i = Some (name, t) ->
  exists o : Z,
    nth_error (offsets_from a 0 fs) i = Some (name, o)
    /\ 0 <= o
    /\ (alignof a t | o)
    /\ o + sizeof a t <= sizeof a (Tstruct fs)
    /\ forall (j : nat) (name' : string) (o' : Z),
         (i < j)%nat ->
         nth_error (offsets_from a 0 fs) j = Some (name', o') ->
         o + sizeof a t <= o'.
Proof.
  intros Ha Hwf Hi.
  destruct (member_placed a Ha fs (wf_members_nonneg a Ha fs Hwf)
                          0 i name t Hi)
    as (o & Ho & Hge & Hdiv & Hend & Hlater).
  exists o. repeat apply conj; try assumption.
  cbn [sizeof].
  match goal with
  | |- _ <= align_up ?x ?al =>
      pose proof (align_up_bounds x al (alignof_pos a Ha (Tstruct fs)))
  end.
  lia.
Qed.

(** The [label] member of the chip-info record. *)
Lemma X7_members_aligned_and_disjoint_witness :
  int_align_ok 4
  /\ forallb (fun f => well_formed (snd f))
             [ ("name", Tarray Tchar 32); ("label", Tarray Tchar 32);
               ("lines", Tu32) ] = true
  /\ nth_error [ ("name", Tarray Tchar 32); ("label", Tarray Tchar 32);
                 ("lines", Tu32) ] 1 = Some ("label", Tarray Tchar 32)
  /\ exists o : Z,
       nth_error (offsets_from 4 0
                    [ ("name", Tarray Tchar 32); ("label", Tarray Tchar 32);
                      ("lines", Tu32) ]) 1 = Some ("label", o)
       /\ 0 <= o.
Proof.
  assert (Ha : int_align_ok 4) by (right; right; reflexivity).
  split; [exact Ha | split; [reflexivity | split; [reflexivity |]]].
  destruct (X7_members_aligned_and_disjoint
              4 [ ("name", Tarray Tchar 32); ("label", Tarray Tchar 32);
                  ("lines", Tu32) ] 1 "label" (Tarray Tchar 32)
              Ha eq_refl eq_refl) as (o & Ho & Hge & _).
  exists o. split; assumption.
Defined.

End LayoutProperties.
